(** * Tudat: the inertial torque partial and the random variable generator

    A shallow embedding of
    [Tudat/Astrodynamics/OrbitDetermination/RotationalDynamicsPartials/inertialTorquePartial.h]
    and [Tudat/Mathematics/Statistics/randomVariableGenerator.h].

    A C++ [double] is an IEEE 754 binary64 number: it is modelled by Rocq's
    primitive [float], whose operations are the binary64 ones (round to
    nearest, ties to even), with a single NaN.  [x = y] below is Leibniz
    equality of floats (it separates [+0] from [-0] and identifies NaN with
    itself); the C++ operator [==] is [PrimFloat.eqb]. *)

From Stdlib Require Import ZArith Floats Bool Lia.
From stdpp Require Import base option list strings.

Definition double : Type := float.
Bind Scope float_scope with double.

(** [TUDAT_NAN], the not-a-number value that serves as the not-a-time
    sentinel. *)
Definition TUDAT_NAN : double := nan.

(** ** Eigen: fixed-size vectors and matrices of doubles *)

Module Eigen.

Record Vector3d : Type := mkVector3d { x : double; y : double; z : double }.

(** A 3 by 3 matrix, [cRC] being the coefficient of row R and column C. *)
Record Matrix3d : Type := mkMatrix3d {
  c00 : double; c01 : double; c02 : double;
  c10 : double; c11 : double; c12 : double;
  c20 : double; c21 : double; c22 : double
}.

(** [M( i, j )], for [i] and [j] below 3. *)
Definition coeff3 (M : Matrix3d) (i j : nat) : double :=
  match i, j with
  | 0, 0 => c00 M | 0, 1 => c01 M | 0, 2 => c02 M
  | 1, 0 => c10 M | 1, 1 => c11 M | 1, 2 => c12 M
  | 2, 0 => c20 M | 2, 1 => c21 M | 2, 2 => c22 M
  | _, _ => 0%float
  end.

Definition Zero3 : Matrix3d :=
  mkMatrix3d 0 0 0 0 0 0 0 0 0.

(** Unary minus, coefficient by coefficient. *)
Definition opp3 (A : Matrix3d) : Matrix3d :=
  mkMatrix3d (- c00 A) (- c01 A) (- c02 A)
             (- c10 A) (- c11 A) (- c12 A)
             (- c20 A) (- c21 A) (- c22 A).

Definition add3 (A B : Matrix3d) : Matrix3d :=
  mkMatrix3d (c00 A + c00 B) (c01 A + c01 B) (c02 A + c02 B)
             (c10 A + c10 B) (c11 A + c11 B) (c12 A + c12 B)
             (c20 A + c20 B) (c21 A + c21 B) (c22 A + c22 B).

(** The inner product of a row with a column, accumulated from the left. *)
Definition dot3 (a0 a1 a2 b0 b1 b2 : double) : double :=
  (a0 * b0 + a1 * b1 + a2 * b2)%float.

Definition mul3 (A B : Matrix3d) : Matrix3d :=
  mkMatrix3d
    (dot3 (c00 A) (c01 A) (c02 A) (c00 B) (c10 B) (c20 B))
    (dot3 (c00 A) (c01 A) (c02 A) (c01 B) (c11 B) (c21 B))
    (dot3 (c00 A) (c01 A) (c02 A) (c02 B) (c12 B) (c22 B))
    (dot3 (c10 A) (c11 A) (c12 A) (c00 B) (c10 B) (c20 B))
    (dot3 (c10 A) (c11 A) (c12 A) (c01 B) (c11 B) (c21 B))
    (dot3 (c10 A) (c11 A) (c12 A) (c02 B) (c12 B) (c22 B))
    (dot3 (c20 A) (c21 A) (c22 A) (c00 B) (c10 B) (c20 B))
    (dot3 (c20 A) (c21 A) (c22 A) (c01 B) (c11 B) (c21 B))
    (dot3 (c20 A) (c21 A) (c22 A) (c02 B) (c12 B) (c22 B)).

Definition mulv3 (A : Matrix3d) (v : Vector3d) : Vector3d :=
  mkVector3d (dot3 (c00 A) (c01 A) (c02 A) (x v) (y v) (z v))
             (dot3 (c10 A) (c11 A) (c12 A) (x v) (y v) (z v))
             (dot3 (c20 A) (c21 A) (c22 A) (x v) (y v) (z v)).

(** [A.inverse( )] for a 3 by 3 matrix: the cofactors over the
    determinant, the determinant being expanded along the first column. *)
Definition inverse3 (A : Matrix3d) : Matrix3d :=
  let k00 := (c11 A * c22 A - c12 A * c21 A)%float in
  let k10 := (c02 A * c21 A - c01 A * c22 A)%float in
  let k20 := (c01 A * c12 A - c02 A * c11 A)%float in
  let k01 := (c12 A * c20 A - c10 A * c22 A)%float in
  let k11 := (c00 A * c22 A - c02 A * c20 A)%float in
  let k21 := (c02 A * c10 A - c00 A * c12 A)%float in
  let k02 := (c10 A * c21 A - c11 A * c20 A)%float in
  let k12 := (c01 A * c20 A - c00 A * c21 A)%float in
  let k22 := (c00 A * c11 A - c01 A * c10 A)%float in
  let det := dot3 k00 k10 k20 (c00 A) (c10 A) (c20 A) in
  let invdet := (1 / det)%float in
  mkMatrix3d (k00 * invdet) (k10 * invdet) (k20 * invdet)
             (k01 * invdet) (k11 * invdet) (k21 * invdet)
             (k02 * invdet) (k12 * invdet) (k22 * invdet).

(** *** Matrices of dynamic size and their blocks *)

(** [MatrixXd]: the sizes and the coefficients, stored column by column:
    the coefficient of row [i] and column [j] is at [i + j * rows]. *)
Record MatrixXd : Type := mkMatrixXd {
  rows : nat;
  cols : nat;
  data : list double
}.

(** [MatrixXd::Zero( r, c )]. *)
Definition Zero (r c : nat) : MatrixXd :=
  mkMatrixXd r c (replicate (r * c) 0%float).

(** [m( i, j )]; nothing outside the matrix. *)
Definition coeff (m : MatrixXd) (i j : nat) : option double :=
  if decide (i < rows m ∧ j < cols m) then data m !! (i + j * rows m)
  else None.

(** [Block< MatrixXd >]: a view of [blockRows] by [blockCols] coefficients
    of the matrix [xpr], from [( startRow, startCol )] on.  A block shares
    the storage of its matrix: to write through the block is to write into
    the matrix. *)
Record Block : Type := mkBlock {
  xpr : MatrixXd;
  startRow : nat;
  startCol : nat;
  blockRows : nat;
  blockCols : nat
}.

(** A block lies within its matrix; Eigen only builds such blocks. *)
Definition block_ok (b : Block) : bool :=
  (startRow b + blockRows b <=? rows (xpr b))
  && (startCol b + blockCols b <=? cols (xpr b)).

(** The whole matrix as a block. *)
Definition whole (m : MatrixXd) : Block :=
  mkBlock m 0 0 (rows m) (cols m).

(** [b.block( i, j, p, q )], the [p] by [q] block of the block [b] from
    [( i, j )] on.  Eigen asserts [i >= 0], [p >= 0], [i <= rows - p] and
    the same of the columns; a request that fails the assertion has no
    block, and [None] stands for it. *)
Definition block (b : Block) (i j p q : Z) : option Block :=
  if decide (0 ≤ i ∧ 0 ≤ p ∧ i ≤ Z.of_nat (blockRows b) - p
             ∧ 0 ≤ j ∧ 0 ≤ q ∧ j ≤ Z.of_nat (blockCols b) - q)%Z
  then Some (mkBlock (xpr b)
               (startRow b + Z.to_nat i) (startCol b + Z.to_nat j)
               (Z.to_nat p) (Z.to_nat q))
  else None.

(** Is the coefficient [( i, j )] of the matrix inside the block? *)
Definition inside (b : Block) (i j : nat) : bool :=
  (startRow b <=? i) && (i <? startRow b + blockRows b)
  && (startCol b <=? j) && (j <? startCol b + blockCols b).

(** [b op= M] for a 3 by 3 block [b]: every coefficient of the block is
    combined with the coefficient of [M] at the same place of the block,
    and the rest of the storage is kept. *)
Definition assign3 (op : double -> double -> double)
    (b : Block) (M : Matrix3d) : MatrixXd :=
  let m := xpr b in
  mkMatrixXd (rows m) (cols m)
    (imap (fun k c =>
             let i := k mod rows m in
             let j := k / rows m in
             if inside b i j
             then op c (coeff3 M (i - startRow b) (j - startCol b))
             else c)
          (data m)).

(** [b += M] and [b -= M]. *)
Definition add_assign3 : Block -> Matrix3d -> MatrixXd := assign3 PrimFloat.add.
Definition sub_assign3 : Block -> Matrix3d -> MatrixXd := assign3 PrimFloat.sub.

End Eigen.

Import Eigen.

(** ** [tudat::linear_algebra] *)

Module linear_algebra.

(** Modelled from the spec: [getCrossProductMatrix] is declared in
    [Tudat/Mathematics/BasicMathematics/linearAlgebra.h], which is not
    among the sources.  The spec fixes it as the skew-symmetric matrix
    [[v x]] with [[v x] w = v x w] for every vector [w]: a zero diagonal
    and the signed components of [v] off it. *)
Definition getCrossProductMatrix (v : Vector3d) : Matrix3d :=
  mkMatrix3d 0       (- z v) (y v)
             (z v)   0       (- x v)
             (- y v) (x v)   0.

End linear_algebra.

Import linear_algebra.

(** ** What a provider reads from outside *)

(** The four functions bound to a provider, as they show in the log of
    invocations. *)
Inductive Accessor : Type :=
  | angularVelocity
  | inertiaTensor
  | inertiaTensorNormalization
  | bodyGravitationalParameter.

Module effects.
Section Effects.

(** The state of whatever the bound functions read: the bodies of the
    simulation. *)
Context {World : Type}.

(** [std::function< T( ) >]: a call returns a value and may change the
    world.  A call that throws is not among the calls modelled: every
    statement below is about calls that return. *)
Definition std_function (T : Type) : Type := World -> T * World.

(** The world together with the log of the invocations made so far, the
    latest last. *)
Record Machine : Type := mkMachine {
  world : World;
  invoked : list Accessor
}.

Definition M (A : Type) : Type := Machine -> A * Machine.

Definition ret {A : Type} (a : A) : M A := fun s => (a, s).

Definition bind {A B : Type} (c : M A) (k : A -> M B) : M B :=
  fun s => let (a, s') := c s in k a s'.

(** A call of the bound function [f], entered in the log as [a]. *)
Definition invoke {T : Type} (a : Accessor) (f : std_function T) : M T :=
  fun s => let (v, w) := f (world s) in (v, mkMachine w (invoked s ++ [a])).

End Effects.
End effects.

Import effects.
Arguments Machine : clear implicits.
Arguments std_function : clear implicits.
Arguments M : clear implicits.

#[export] Instance M_ret {World : Type} : MRet (M World) := @ret World.
#[export] Instance M_bind {World : Type} : MBind (M World) :=
  fun A B k c => bind c k.

(** ** [tudat::basic_astrodynamics] and [tudat::propagators] *)

(** Modelled from the spec: the torque-type tag by which a provider is
    routed, an enumeration that the sources use and do not declare.  Only
    [torque_free] occurs in them. *)
Inductive AvailableTorque : Type :=
  | torque_free
  | other_torque (tag : nat).

(** ** [tudat::acceleration_partials] *)

Module acceleration_partials.

(** The members of the base class [TorquePartial] that the provider sets or
    reads: the two body names, the torque type, and the epoch marker
    [currentTime_] that [update] compares its argument with. *)
Record TorquePartial : Type := mkTorquePartial {
  acceleratedBody_ : string;
  acceleratingBody_ : string;
  torqueType_ : AvailableTorque;
  currentTime_ : double
}.

(** Modelled from the spec: the constructor of the base class, which is not
    among the sources.  It records the two bodies and the torque type, and
    the epoch marker is the not-a-time sentinel before first use. *)
Definition TorquePartial_ (acceleratedBody acceleratingBody : string)
    (torqueType : AvailableTorque) : TorquePartial :=
  mkTorquePartial acceleratedBody acceleratingBody torqueType TUDAT_NAN.

Section InertialTorquePartial.

Context {World : Type}.

(** The class: its base, the four bound functions and the seven cached
    members. *)
Record InertialTorquePartial : Type := mkInertialTorquePartial {
  base :> TorquePartial;
  angularVelocityFunction_ : std_function World Vector3d;
  inertiaTensorFunction_ : std_function World Matrix3d;
  getInertiaTensorNormalizationFactor_ : std_function World double;
  bodyGravitationalParameterFunction_ : std_function World double;
  currentAngularVelocityVector_ : Vector3d;
  currentAngularVelocityCrossProductMatrix_ : Matrix3d;
  currentInertiaTensor_ : Matrix3d;
  currentInverseInertiaTensor_ : Matrix3d;
  currentPartialDerivativeWrtAngularVelocity_ : Matrix3d;
  currentInertiaTensorNormalizationFactor_ : double;
  currentGravitationalParameter_ : double
}.

(** The constructor initialises none of the seven cached members: they
    hold whatever the storage of the object held. *)
Record Indeterminate : Type := mkIndeterminate {
  someVector : Vector3d;
  someCrossProductMatrix : Matrix3d;
  someInertiaTensor : Matrix3d;
  someInverseInertiaTensor : Matrix3d;
  somePartialDerivative : Matrix3d;
  someNormalizationFactor : double;
  someGravitationalParameter : double
}.

(** The constructor: the base is built with the accelerated body as the
    body that exerts the torque and with [torque_free], and the four
    functions are bound. *)
Definition construct
    (angularVelocityFunction : std_function World Vector3d)
    (inertiaTensorFunction : std_function World Matrix3d)
    (inertiaTensorNormalizationFunction : std_function World double)
    (bodyGravitationalParameterFunction : std_function World double)
    (acceleratedBody : string)
    (storage : Indeterminate) : InertialTorquePartial :=
  {| base := TorquePartial_ acceleratedBody acceleratedBody torque_free;
     angularVelocityFunction_ := angularVelocityFunction;
     inertiaTensorFunction_ := inertiaTensorFunction;
     getInertiaTensorNormalizationFactor_ := inertiaTensorNormalizationFunction;
     bodyGravitationalParameterFunction_ := bodyGravitationalParameterFunction;
     currentAngularVelocityVector_ := someVector storage;
     currentAngularVelocityCrossProductMatrix_ := someCrossProductMatrix storage;
     currentInertiaTensor_ := someInertiaTensor storage;
     currentInverseInertiaTensor_ := someInverseInertiaTensor storage;
     currentPartialDerivativeWrtAngularVelocity_ := somePartialDerivative storage;
     currentInertiaTensorNormalizationFactor_ := someNormalizationFactor storage;
     currentGravitationalParameter_ := someGravitationalParameter storage |}.

(** [return 0;] *)
Definition isStateDerivativeDependentOnIntegratedNonRotationalState
    {IntegratedStateType : Type} (this : InertialTorquePartial)
    (stateReferencePoint : string * string)
    (integratedStateType : IntegratedStateType) : bool :=
  false.

(** [return false;] *)
Definition isStateDerivativeDependentOnIntegratedAdditionalStateTypes
    {IntegratedStateType : Type} (this : InertialTorquePartial)
    (stateReferencePoint : string * string)
    (integratedStateType : IntegratedStateType) : bool :=
  false.

(** The body is empty: the object and the matrix of the block are as they
    were. *)
Definition wrtOrientationOfAcceleratedBody (this : InertialTorquePartial)
    (partialMatrix : Block) (addContribution : bool)
    (startRow startColumn : Z) : InertialTorquePartial * MatrixXd :=
  (this, xpr partialMatrix).

(** The matrix of the block after the call, or [None] where
    [partialMatrix.block( startRow, startColumn, 3, 3 )] is no block. *)
Definition wrtRotationalVelocityOfAcceleratedBody (this : InertialTorquePartial)
    (partialMatrix : Block) (addContribution : bool)
    (startRow startColumn : Z) : option MatrixXd :=
  b ← block partialMatrix startRow startColumn 3 3;
  Some (if addContribution
        then add_assign3 b (currentPartialDerivativeWrtAngularVelocity_ this)
        else sub_assign3 b (currentPartialDerivativeWrtAngularVelocity_ this)).

(** The assignments guarded by the comparison of the epochs in [update],
    given the four values that the bound functions returned.  The base, and
    the epoch marker with it, is assigned by none of them. *)
Definition recomputed (this : InertialTorquePartial) (omega : Vector3d)
    (factor mu : double) (tensor : Matrix3d) : InertialTorquePartial :=
  {| base := base this;
     angularVelocityFunction_ := angularVelocityFunction_ this;
     inertiaTensorFunction_ := inertiaTensorFunction_ this;
     getInertiaTensorNormalizationFactor_ :=
       getInertiaTensorNormalizationFactor_ this;
     bodyGravitationalParameterFunction_ :=
       bodyGravitationalParameterFunction_ this;
     currentAngularVelocityVector_ := omega;
     currentAngularVelocityCrossProductMatrix_ := getCrossProductMatrix omega;
     currentInertiaTensor_ := tensor;
     currentInverseInertiaTensor_ := inverse3 tensor;
     currentPartialDerivativeWrtAngularVelocity_ :=
       add3 (mul3 (opp3 (getCrossProductMatrix omega)) tensor)
            (getCrossProductMatrix (mulv3 tensor omega));
     currentInertiaTensorNormalizationFactor_ := factor;
     currentGravitationalParameter_ := mu |}.

(** The guarded statements with their calls, in the order of the source:
    the angular velocity, the normalization factor, the gravitational
    parameter, the inertia tensor. *)
Definition refresh (this : InertialTorquePartial) : M World InertialTorquePartial :=
  omega ← invoke angularVelocity (angularVelocityFunction_ this);
  factor ← invoke inertiaTensorNormalization
             (getInertiaTensorNormalizationFactor_ this);
  mu ← invoke bodyGravitationalParameter
         (bodyGravitationalParameterFunction_ this);
  tensor ← invoke inertiaTensor (inertiaTensorFunction_ this);
  mret (recomputed this omega factor mu tensor).

(** [if( !( currentTime_ == currentTime ) ) { ... }] *)
Definition update (this : InertialTorquePartial) (currentTime : double)
    : M World InertialTorquePartial :=
  if negb (currentTime_ this =? currentTime)%float
  then refresh this
  else mret this.

End InertialTorquePartial.
End acceleration_partials.

Import acceleration_partials.
Arguments InertialTorquePartial : clear implicits.

(** ** The dispatch on the parameter identity *)

Module estimatable_parameters.

(** Modelled from the spec: the kinds of the parameters with a [double] for
    a value, which [EstimatableParameters/] declares and the sources do not
    hold.  The kinds are those of the spec's dispatch table, every other
    one being unrelated. *)
Inductive DoubleParameterKind : Type :=
  | mean_moment_of_inertia
  | gravitational_parameter
  | unrelated_double_parameter (tag : nat).

(** Modelled from the spec: the kinds of the parameters with a vector for a
    value, in the same way. *)
Inductive VectorParameterKind : Type :=
  | degree_two_cosine_coefficients
  | degree_two_sine_coefficients
  | unrelated_vector_parameter (tag : nat).

(** Modelled from the spec: the identity of a parameter, its kind and the
    body it belongs to. *)
Record EstimatableParameter (Kind : Type) : Type := mkEstimatableParameter {
  parameterKind : Kind;
  parameterBody : string
}.
Arguments mkEstimatableParameter {Kind}.
Arguments parameterKind {Kind}.
Arguments parameterBody {Kind}.

End estimatable_parameters.

Import estimatable_parameters.

Module parameter_dispatch.
Section Dispatch.

Context {World : Type}.

(** The protected member functions that a returned callable is bound to. *)
Inductive PartialFunction : Type :=
  | wrtMeanMomentOfInertia
  | wrtGravitationalParameter
  | wrtCosineSphericalHarmonicCoefficientsOfCentralBody
  | wrtSineSphericalHarmonicCoefficientsOfCentralBody.

(** Modelled from the spec: [getParameterPartialFunction] for a parameter
    with a value of type [double].  The header declares it and the file
    that defines it is not among the sources.  The spec's table: width 1
    for the mean moment of inertia and for the gravitational parameter of
    the body of the provider, and width 0 with no callable for every other
    identity, a parameter of another body among them. *)
Definition getParameterPartialFunction_double (this : InertialTorquePartial World)
    (parameter : EstimatableParameter DoubleParameterKind)
    : option PartialFunction * Z :=
  if String.eqb (parameterBody parameter) (acceleratedBody_ this)
  then match parameterKind parameter with
       | mean_moment_of_inertia => (Some wrtMeanMomentOfInertia, 1%Z)
       | gravitational_parameter => (Some wrtGravitationalParameter, 1%Z)
       | unrelated_double_parameter _ => (None, 0%Z)
       end
  else (None, 0%Z).

(** Modelled from the spec: the overload for a parameter with a value of
    type [Eigen::VectorXd], absent from the sources in the same way.  The
    spec's table: width 3 for the cosine coefficients C20, C21, C22, width
    2 for the sine coefficients S21, S22, and width 0 with no callable for
    every other identity. *)
Definition getParameterPartialFunction_vector (this : InertialTorquePartial World)
    (parameter : EstimatableParameter VectorParameterKind)
    : option PartialFunction * Z :=
  if String.eqb (parameterBody parameter) (acceleratedBody_ this)
  then match parameterKind parameter with
       | degree_two_cosine_coefficients =>
           (Some wrtCosineSphericalHarmonicCoefficientsOfCentralBody, 3%Z)
       | degree_two_sine_coefficients =>
           (Some wrtSineSphericalHarmonicCoefficientsOfCentralBody, 2%Z)
       | unrelated_vector_parameter _ => (None, 0%Z)
       end
  else (None, 0%Z).

End Dispatch.
End parameter_dispatch.

Import parameter_dispatch.

(** ** [tudat::statistics] *)

Module statistics.

(** The interface [InvertibleContinuousProbabilityDistribution< double >],
    of which the generator uses [evaluateInverseCdf] alone.  Its
    declaration is not among the sources; the inverse of a cumulative
    distribution function is taken as a function of its argument. *)
Class InvertibleContinuousProbabilityDistribution (D : Type) : Type :=
  evaluateInverseCdf : D -> double -> double.

(** The base class [RandomVariableGenerator< DependentVariableType >]: a
    call of the virtual [getRandomVariableValue] returns a value and
    leaves the generator in a new state. *)
Class RandomVariableGenerator (G DependentVariableType : Type) : Type :=
  getRandomVariableValue : G -> DependentVariableType * G.

Section ContinuousRandomVariableGenerator.

(** Boost's engine [boost::random::mt19937]: its states, its
    construction from the seed (the [double] the constructor receives),
    and one call of [boost::random::uniform_01< mt19937 >] on an engine,
    which returns the value and the engine it leaves. *)
Context {mt19937 : Type}.
Context (seeded : double -> mt19937).
Context (uniform_01 : mt19937 -> double * mt19937).
Context {D : Type} `{InvertibleContinuousProbabilityDistribution D}.

(** [randomUniformCdfGenerator_] is a [uniform_01< mt19937 >]: it holds
    an engine of its own, by value, which the constructor copies from
    [randomNumberGenerator_]. *)
Record ContinuousRandomVariableGenerator : Type :=
  mkContinuousRandomVariableGenerator {
    randomNumberGenerator_ : mt19937;
    randomVariable_ : D;
    randomUniformCdfGenerator_ : mt19937
  }.

Definition construct (randomVariable : D) (seed : double)
    : ContinuousRandomVariableGenerator :=
  let randomNumberGenerator := seeded seed in
  {| randomNumberGenerator_ := randomNumberGenerator;
     randomVariable_ := randomVariable;
     randomUniformCdfGenerator_ := randomNumberGenerator |}.

#[export] Instance continuous_generator
    : RandomVariableGenerator ContinuousRandomVariableGenerator double :=
  fun this =>
    let (u, engine) := uniform_01 (randomUniformCdfGenerator_ this) in
    (evaluateInverseCdf (randomVariable_ this) u,
     {| randomNumberGenerator_ := randomNumberGenerator_ this;
        randomVariable_ := randomVariable_ this;
        randomUniformCdfGenerator_ := engine |}).

End ContinuousRandomVariableGenerator.

(** The values of [n] calls in a row on one generator. *)
Fixpoint values {G T : Type} `{RandomVariableGenerator G T}
    (n : nat) (g : G) : list T :=
  match n with
  | O => []
  | S n' => let (v, g') := getRandomVariableValue g in v :: values n' g'
  end.

(** Two generators that one caller uses in turn. *)
Inductive Instance_ : Type := first | second.

Definition same (i j : Instance_) : bool :=
  match i, j with
  | first, first | second, second => true
  | _, _ => false
  end.

(** How many calls of [schedule] go to the generator [i]. *)
Fixpoint calls_of (i : Instance_) (schedule : list Instance_) : nat :=
  match schedule with
  | [] => 0
  | j :: rest => (if same i j then 1 else 0) + calls_of i rest
  end.

End statistics.

(** ** Statements that several results share *)

(** The invocations of one refresh, in the order in which [update] makes
    them. *)
Definition refresh_log : list Accessor :=
  [angularVelocity; inertiaTensorNormalization;
   bodyGravitationalParameter; inertiaTensor].

(** Neither an infinity nor a NaN. *)
Definition finite (c : double) : bool := PrimFloat.is_finite c.

Definition finite3 (M : Matrix3d) : bool :=
  finite (c00 M) && finite (c01 M) && finite (c02 M)
  && finite (c10 M) && finite (c11 M) && finite (c12 M)
  && finite (c20 M) && finite (c21 M) && finite (c22 M).

(** The storage of a matrix has one coefficient for each place. *)
Definition storage_ok (m : MatrixXd) : bool :=
  length (data m) =? rows m * cols m.

(** The block [b] laid over the matrix [m], which is how a caller goes on
    using a block after a write through it. *)
Definition over (b : Block) (m : MatrixXd) : Block :=
  mkBlock m (startRow b) (startCol b) (blockRows b) (blockCols b).

(** A 3 by 3 block at [( startRow, startColumn )] lies within the block
    [partialMatrix]. *)
Definition fits (partialMatrix : Block) (startRow startColumn : Z) : Prop :=
  (0 ≤ startRow ∧ startRow + 3 ≤ Z.of_nat (blockRows partialMatrix)
   ∧ 0 ≤ startColumn ∧ startColumn + 3 ≤ Z.of_nat (blockCols partialMatrix))%Z.

(** Every coefficient of the block is zero; the matrix around the block
    may hold anything. *)
Definition zero_block (b : Block) : Prop :=
  forall p q, p < blockRows b -> q < blockCols b ->
    coeff (xpr b) (startRow b + p) (startCol b + q) = Some 0%float.

(** ** The scenario of the spec's tests *)

Module scenario.

#[warnings="-inexact-float"]
Definition omega : Vector3d := mkVector3d 0.1 0.2 0.3.

Definition inertia : Matrix3d := mkMatrix3d 1 0 0  0 2 0  0 0 3.

Definition storage : Indeterminate :=
  mkIndeterminate (mkVector3d 0 0 0) Zero3 Zero3 Zero3 Zero3 0 0.

(** Bound functions that return the same values at every call and leave
    the world, which has one state, alone. *)
Definition constant {T : Type} (v : T) : std_function unit T :=
  fun w => (v, w).

Definition provider : InertialTorquePartial unit :=
  construct (constant omega) (constant inertia)
            (constant 1%float) (constant 1%float) "Moon" storage.

Definition start : Machine unit := mkMachine tt [].

(** The provider after [update( 0.0 )]. *)
Definition updated : InertialTorquePartial unit :=
  fst (update provider 0%float start).

(** A provider of a body whose angular velocity has not been set yet: the
    bound function returns the sentinel in every component. *)
Definition unset : InertialTorquePartial unit :=
  construct (constant (mkVector3d TUDAT_NAN TUDAT_NAN TUDAT_NAN))
            (constant inertia) (constant 1%float) (constant 1%float)
            "Moon" storage.

Definition unset_updated : InertialTorquePartial unit :=
  fst (update unset 0%float start).

(** The 3 by 6 zero matrix of the end-to-end test, as a block. *)
Definition zeros : Block := whole (Zero 3 6).

(** A 3 by 6 matrix with ones in its columns 0 to 2 and zeros in its
    columns 3 to 5, and the block of its columns 3 to 5. *)
Definition half_filled : MatrixXd :=
  mkMatrixXd 3 6 (replicate 9 1%float ++ replicate 9 0%float).

Definition zero_half : Block := mkBlock half_filled 0 3 3 3.

End scenario.

(** ** Runs of calls *)

Module runs.
Section Updates.

Context {World : Type}.

(** A caller that passes the epochs of [epochs] to [update], one call after
    the other, on the same provider. *)
Fixpoint updates (epochs : list double) (this : InertialTorquePartial World)
    : M World (InertialTorquePartial World) :=
  match epochs with
  | [] => mret this
  | t :: rest => this' ← update this t; updates rest this'
  end.

(** A bound function that reads the world and leaves it as it is. *)
Definition reads_only {T : Type} (f : std_function World T) : Prop :=
  forall w, snd (f w) = w.

Definition bound_functions_read_only (this : InertialTorquePartial World) : Prop :=
  reads_only (angularVelocityFunction_ this)
  /\ reads_only (inertiaTensorFunction_ this)
  /\ reads_only (getInertiaTensorNormalizationFactor_ this)
  /\ reads_only (bodyGravitationalParameterFunction_ this).

(** Two providers with the same base and the same bound functions: they may
    differ in the seven cached members. *)
Definition same_bindings (this other : InertialTorquePartial World) : Prop :=
  base this = base other
  /\ angularVelocityFunction_ this = angularVelocityFunction_ other
  /\ inertiaTensorFunction_ this = inertiaTensorFunction_ other
  /\ getInertiaTensorNormalizationFactor_ this
     = getInertiaTensorNormalizationFactor_ other
  /\ bodyGravitationalParameterFunction_ this
     = bodyGravitationalParameterFunction_ other.


End Updates.

(** The 3 by 3 blocks at [( r1, c1 )] and at [( r2, c2 )] share no
    coefficient. *)
Definition apart (r1 c1 r2 c2 : Z) : Prop :=
  (r1 + 3 ≤ r2 ∨ r2 + 3 ≤ r1 ∨ c1 + 3 ≤ c2 ∨ c2 + 3 ≤ c1)%Z.

Section Draws.

Import statistics.

Context {mt19937 : Type}.
Context (uniform_01 : mt19937 -> double * mt19937).

(** The values of [n] calls in a row of [uniform_01] on an engine. *)
Fixpoint uniforms (n : nat) (engine : mt19937) : list double :=
  match n with
  | O => []
  | S n' => let (u, engine') := uniform_01 engine in u :: uniforms n' engine'
  end.

(** The engine that [n] such calls leave. *)
Fixpoint engine_after (n : nat) (engine : mt19937) : mt19937 :=
  match n with
  | O => engine
  | S n' => engine_after n' (snd (uniform_01 engine))
  end.

End Draws.

(** The generator that [n] calls of [getRandomVariableValue] leave. *)
Fixpoint after {G T : Type} `{statistics.RandomVariableGenerator G T}
    (n : nat) (g : G) : G :=
  match n with
  | O => g
  | S n' => after n' (snd (statistics.getRandomVariableValue g))
  end.

End runs.

Import runs.

(** ** The distribution behind its shared pointer *)

Module shared.
Section Shared.

Import statistics.

(** Boost's engine, as in [statistics]. *)
Context {mt19937 : Type}.
Context (seeded : double -> mt19937).
Context (uniform_01 : mt19937 -> double * mt19937).

(** The objects that implement
    [InvertibleContinuousProbabilityDistribution< double >].  The generator
    holds a [shared_ptr] to an object that is not const and calls
    [evaluateInverseCdf] through it; the declaration of the interface is not
    among the sources, so the call is taken as the most a virtual member
    function can be: it returns a value and leaves the object in a state
    that may be another. *)
Context {Object : Type}.
Context (evaluateInverseCdf : Object -> double -> double * Object).

(** The objects that the pointers of a program point to; a [shared_ptr] is
    the place of its object. *)
Definition Heap : Type := list Object.

Record ContinuousRandomVariableGenerator : Type :=
  mkContinuousRandomVariableGenerator {
    randomNumberGenerator_ : mt19937;
    randomVariable_ : nat;
    randomUniformCdfGenerator_ : mt19937
  }.

(** The constructor: the pointer is copied, so that the generators built
    from one pointer share its object; the engine of
    [randomUniformCdfGenerator_] is a copy of the seeded engine. *)
Definition construct (randomVariable : nat) (seed : double)
    : ContinuousRandomVariableGenerator :=
  let randomNumberGenerator := seeded seed in
  {| randomNumberGenerator_ := randomNumberGenerator;
     randomVariable_ := randomVariable;
     randomUniformCdfGenerator_ := randomNumberGenerator |}.

(** [return randomVariable_->evaluateInverseCdf( randomUniformCdfGenerator_( ) );]
    The value, the generator and the heap after the call; [None] if the
    pointer has no object. *)
Definition getRandomVariableValue (this : ContinuousRandomVariableGenerator)
    (heap : Heap) : option (double * ContinuousRandomVariableGenerator * Heap) :=
  let (u, engine) := uniform_01 (randomUniformCdfGenerator_ this) in
  object ← heap !! randomVariable_ this;
  let (v, object') := evaluateInverseCdf object u in
  Some (v,
        {| randomNumberGenerator_ := randomNumberGenerator_ this;
           randomVariable_ := randomVariable_ this;
           randomUniformCdfGenerator_ := engine |},
        <[randomVariable_ this := object']> heap).

(** The values each of two generators returns when a caller makes the calls
    on them in the order of [schedule], over one heap. *)
Fixpoint interleaved (schedule : list Instance_)
    (g1 g2 : ContinuousRandomVariableGenerator) (heap : Heap)
    : option (list double * list double) :=
  match schedule with
  | [] => Some ([], [])
  | first :: rest =>
      '(v, g1', heap') ← getRandomVariableValue g1 heap;
      '(o1, o2) ← interleaved rest g1' g2 heap';
      Some (v :: o1, o2)
  | second :: rest =>
      '(v, g2', heap') ← getRandomVariableValue g2 heap;
      '(o1, o2) ← interleaved rest g1 g2' heap';
      Some (o1, v :: o2)
  end.

End Shared.

(** *** Stand-ins for what the sources leave open *)




(** A distribution object that counts the calls of [evaluateInverseCdf]:
    the value is the count so far, whatever the argument. *)
Definition counting (count : double) (u : double) : double * double :=
  (count, (count + 1)%float).

End shared.

(** * Results *)

(** ** Doubles *)

Section Doubles.

Local Open Scope float_scope.



(** A finite double is a zero or a number with a mantissa. *)
Lemma finite_inv (c : double) :
  finite c = true ->
  (exists s, Prim2SF c = S754_zero s)
  \/ (exists s m e, Prim2SF c = S754_finite s m e).
Proof.
  unfold finite, is_finite, is_nan, is_infinity.
  rewrite !FloatAxioms.eqb_spec, FloatAxioms.abs_spec.
  destruct (Prim2SF c) as [s| s | |s m e] eqn:E; intros Hc.
  - left. eauto.
  - exfalso. destruct s; vm_compute in Hc; discriminate.
  - exfalso. vm_compute in Hc. discriminate.
  - right. eauto.
Qed.

(** Adding a finite double to zero and taking it away again gives zero,
    the positive one. *)
Lemma add_sub_cancel_zero (c : double) :
  finite c = true -> 0 + c - c = 0.
Proof.
  intros Hc. apply Prim2SF_inj.
  rewrite FloatAxioms.sub_spec, FloatAxioms.add_spec.
  destruct (finite_inv c Hc) as [[s ->] | (s & m & e & ->)].
  - destruct s; reflexivity.
  - change (Prim2SF 0) with (S754_zero false).
    unfold SF64add, SF64sub. cbn [SFadd SFsub].
    rewrite Z.sub_diag. reflexivity.
Qed.

(** Not so for a NaN. *)
Lemma add_sub_nan : 0 + TUDAT_NAN - TUDAT_NAN = TUDAT_NAN.
Proof. reflexivity. Qed.

Lemma nan_not_zero : TUDAT_NAN <> 0.
Proof.
  intros H. apply (f_equal is_nan) in H. vm_compute in H. discriminate.
Qed.

End Doubles.

(** ** Writing through a block *)

Section Blocks.

Lemma index_row (i j r : nat) : i < r -> (i + j * r) mod r = i.
Proof.
  intros Hi. rewrite Nat.Div0.mod_add. now apply Nat.mod_small.
Qed.

Lemma index_col (i j r : nat) : i < r -> (i + j * r) / r = j.
Proof.
  intros Hi. rewrite Nat.div_add by lia.
  rewrite Nat.div_small by lia. reflexivity.
Qed.

(** Within the bounds of a well-stored matrix there is a coefficient. *)
Lemma coeff_is_Some (m : MatrixXd) (i j : nat) :
  storage_ok m = true -> i < rows m -> j < cols m -> is_Some (coeff m i j).
Proof.
  unfold storage_ok, coeff. intros Hm%Nat.eqb_eq Hi Hj.
  rewrite decide_True by done.
  apply lookup_lt_is_Some. rewrite Hm. nia.
Qed.

Lemma coeff_Zero (r c i j : nat) :
  i < r -> j < c -> coeff (Zero r c) i j = Some 0%float.
Proof.
  intros Hi Hj. unfold coeff, Zero. cbn [rows cols data].
  rewrite decide_True by done.
  apply lookup_replicate_2. nia.
Qed.

(** What [b op= M] leaves at each place of the matrix. *)
Lemma coeff_assign3 (op : double -> double -> double) (b : Block)
    (M : Matrix3d) (i j : nat) :
  coeff (assign3 op b M) i j =
    if inside b i j
    then (fun c => op c (coeff3 M (i - startRow b) (j - startCol b)))
           <$> coeff (xpr b) i j
    else coeff (xpr b) i j.
Proof.
  unfold coeff, assign3. cbn [rows cols data].
  case_decide as Hij.
  - destruct Hij as [Hi Hj].
    rewrite list_lookup_imap, index_row, index_col by done.
    destruct (inside b i j); [reflexivity|].
    now destruct (data (xpr b) !! (i + j * rows (xpr b))).
  - now destruct (inside b i j).
Qed.

Lemma matrix_eq (m m' : MatrixXd) :
  rows m = rows m' -> cols m = cols m' -> data m = data m' -> m = m'.
Proof. destruct m, m'. cbn. now intros -> -> ->. Qed.

Lemma assign3_rows op b M : rows (assign3 op b M) = rows (xpr b).
Proof. reflexivity. Qed.

Lemma assign3_cols op b M : cols (assign3 op b M) = cols (xpr b).
Proof. reflexivity. Qed.

Lemma assign3_storage_ok op b M :
  storage_ok (assign3 op b M) = storage_ok (xpr b).
Proof.
  unfold storage_ok, assign3. cbn [rows cols data].
  now rewrite length_imap.
Qed.

(** A request that fits is granted, and where. *)
Lemma block_fits (b : Block) (i j : Z) :
  fits b i j ->
  block b i j 3 3 =
    Some (mkBlock (xpr b) (startRow b + Z.to_nat i) (startCol b + Z.to_nat j) 3 3).
Proof.
  unfold fits, block. intros H.
  rewrite decide_True by lia. reflexivity.
Qed.

(** A request that does not fit is refused. *)
Lemma block_refused (b : Block) (i j : Z) :
  ~ fits b i j -> block b i j 3 3 = None.
Proof.
  unfold fits, block. intros H.
  rewrite decide_False by lia. reflexivity.
Qed.

Lemma inside_spec (b : Block) (i j : nat) :
  inside b i j = true <->
  startRow b <= i < startRow b + blockRows b
  /\ startCol b <= j < startCol b + blockCols b.
Proof.
  unfold inside.
  rewrite !andb_true_iff, !Nat.leb_le, !Nat.ltb_lt. lia.
Qed.

Lemma finite_coeff3 (M : Matrix3d) (p q : nat) :
  finite3 M = true -> finite (coeff3 M p q) = true.
Proof.
  unfold finite3. rewrite !andb_true_iff.
  intros [[[[[[[[H00 H01] H02] H10] H11] H12] H20] H21] H22].
  destruct p as [|[|[|p]]], q as [|[|[|q]]]; cbn [coeff3]; try assumption;
    reflexivity.
Qed.

End Blocks.

(** ** The epoch cache *)

Section Update.

Context {World : Type}.
Implicit Types (this : InertialTorquePartial World) (s : Machine World).
Implicit Types (t : double).

(** One refresh, call by call. *)
Lemma refresh_run this s omega w1 factor w2 mu w3 tensor w4 :
  angularVelocityFunction_ this (world s) = (omega, w1) ->
  getInertiaTensorNormalizationFactor_ this w1 = (factor, w2) ->
  bodyGravitationalParameterFunction_ this w2 = (mu, w3) ->
  inertiaTensorFunction_ this w3 = (tensor, w4) ->
  refresh this s =
    (recomputed this omega factor mu tensor,
     mkMachine w4 (invoked s ++ refresh_log)).
Proof.
  intros H1 H2 H3 H4.
  unfold refresh, mbind, M_bind, mret, M_ret, bind, ret, invoke.
  rewrite H1. cbn [world invoked]. rewrite H2. cbn [world invoked].
  rewrite H3. cbn [world invoked]. rewrite H4.
  unfold refresh_log. now rewrite <- !app_assoc.
Qed.

(** A refresh always runs to its end, with some four values. *)
Lemma refresh_total this s :
  exists omega factor mu tensor w,
    refresh this s =
      (recomputed this omega factor mu tensor,
       mkMachine w (invoked s ++ refresh_log)).
Proof.
  destruct (angularVelocityFunction_ this (world s)) as [omega w1] eqn:H1.
  destruct (getInertiaTensorNormalizationFactor_ this w1) as [factor w2] eqn:H2.
  destruct (bodyGravitationalParameterFunction_ this w2) as [mu w3] eqn:H3.
  destruct (inertiaTensorFunction_ this w3) as [tensor w4] eqn:H4.
  exists omega, factor, mu, tensor, w4.
  now apply (refresh_run this s omega w1 factor w2 mu w3 tensor w4).
Qed.

Lemma refresh_invoked this s :
  invoked (snd (refresh this s)) = invoked s ++ refresh_log.
Proof.
  destruct (refresh_total this s) as (omega & factor & mu & tensor & w & ->).
  reflexivity.
Qed.

Lemma refresh_currentTime this s :
  currentTime_ (fst (refresh this s)) = currentTime_ this.
Proof.
  destruct (refresh_total this s) as (omega & factor & mu & tensor & w & ->).
  reflexivity.
Qed.

Lemma update_unequal this t s :
  (currentTime_ this =? t)%float = false -> update this t s = refresh this s.
Proof. unfold update. now intros ->. Qed.

Lemma update_equal this t s :
  (currentTime_ this =? t)%float = true -> update this t s = (this, s).
Proof. unfold update. now intros ->. Qed.

(** No call of [update] changes the epoch marker. *)
Lemma update_currentTime this t s :
  currentTime_ (fst (update this t s)) = currentTime_ this.
Proof.
  unfold update. destruct (currentTime_ this =? t)%float; cbn [negb].
  - reflexivity.
  - apply refresh_currentTime.
Qed.



End Update.

(** ** The claims on [update] *)

Section UpdateClaims.

Context {World : Type}.
Implicit Types (this : InertialTorquePartial World) (s : Machine World).
Implicit Types (t : double).

(** C1.  After a call of [update] that refreshes, that is, one whose epoch
    compares unequal to the epoch marker, the cached partial of the
    pseudo-torque with respect to the angular velocity is
    [-[omega x] * I + [(I * omega) x]], for the angular velocity [omega]
    and the inertia tensor [I] that the bound functions returned in that
    call. *)
Theorem update_caches_analytic_partial this t s omega w1 factor w2 mu w3 tensor w4 :
  (currentTime_ this =? t)%float = false ->
  angularVelocityFunction_ this (world s) = (omega, w1) ->
  getInertiaTensorNormalizationFactor_ this w1 = (factor, w2) ->
  bodyGravitationalParameterFunction_ this w2 = (mu, w3) ->
  inertiaTensorFunction_ this w3 = (tensor, w4) ->
  currentPartialDerivativeWrtAngularVelocity_ (fst (update this t s)) =
    add3 (mul3 (opp3 (getCrossProductMatrix omega)) tensor)
         (getCrossProductMatrix (mulv3 tensor omega)).
Proof.
  intros Ht H1 H2 H3 H4.
  rewrite (update_unequal this t s Ht).
  rewrite (refresh_run this s omega w1 factor w2 mu w3 tensor w4 H1 H2 H3 H4).
  reflexivity.
Qed.

(** C2, on the code.  The claim has a second [update( t )] with the same [t]
    leave the cache alone and invoke no bound function.  On the code, if
    the first [update( t )] refreshes, the second refreshes again, for no
    statement has assigned the epoch marker in between: the four bound
    functions are invoked a second time. *)
Theorem update_repeated_epoch_refreshes_again this t s :
  (currentTime_ this =? t)%float = false ->
  let first_call := update this t s in
  let second_call := update (fst first_call) t (snd first_call) in
  first_call = refresh this s
  /\ second_call = refresh (fst first_call) (snd first_call)
  /\ invoked (snd first_call) = invoked s ++ refresh_log
  /\ invoked (snd second_call) = invoked s ++ refresh_log ++ refresh_log.
Proof.
  intros Ht. cbv zeta.
  rewrite (update_unequal this t s Ht).
  assert ((currentTime_ (fst (refresh this s)) =? t)%float = false) as Ht'
    by (rewrite refresh_currentTime; exact Ht).
  rewrite (update_unequal _ t _ Ht').
  rewrite !refresh_invoked. rewrite <- app_assoc. auto.
Qed.


End UpdateClaims.

(** C1 at the values of the spec's test: [omega = (0.1, 0.2, 0.3)],
    [I = diag(1, 2, 3)], epoch 0. *)
Lemma update_caches_analytic_partial_witness :
  currentPartialDerivativeWrtAngularVelocity_
    (fst (update scenario.provider 0%float scenario.start)) =
  add3 (mul3 (opp3 (getCrossProductMatrix scenario.omega)) scenario.inertia)
       (getCrossProductMatrix (mulv3 scenario.inertia scenario.omega)).
Proof.
  apply (update_caches_analytic_partial scenario.provider 0%float scenario.start
           scenario.omega tt 1%float tt 1%float tt scenario.inertia tt);
    reflexivity.
Defined.

(** C2 at the failing input: [update( 1.0 )] twice on the newly constructed
    provider of the scenario. *)
Lemma update_repeated_epoch_refreshes_again_witness :
  let first_call := update scenario.provider 1%float scenario.start in
  let second_call := update (fst first_call) 1%float (snd first_call) in
  first_call = refresh scenario.provider scenario.start
  /\ second_call = refresh (fst first_call) (snd first_call)
  /\ invoked (snd first_call) = invoked scenario.start ++ refresh_log
  /\ invoked (snd second_call)
     = invoked scenario.start ++ refresh_log ++ refresh_log.
Proof.
  apply (update_repeated_epoch_refreshes_again
           scenario.provider 1%float scenario.start).
  reflexivity.
Defined.

(** C3, on the code.  The claim has the epoch marker equal to the epoch of
    the latest call of [update].  After [update( 1.0 )] on a newly
    constructed provider the cached members are refreshed and the marker is
    still the sentinel: it does not compare equal to 1, and a second
    [update( 1.0 )] invokes the four bound functions again. *)
Theorem update_leaves_epoch_marker :
  let first_call := update scenario.provider 1%float scenario.start in
  let second_call := update (fst first_call) 1%float (snd first_call) in
  currentAngularVelocityVector_ (fst first_call) = scenario.omega
  /\ currentTime_ (fst first_call) = TUDAT_NAN
  /\ (currentTime_ (fst first_call) =? 1)%float = false
  /\ invoked (snd first_call) = refresh_log
  /\ invoked (snd second_call) = refresh_log ++ refresh_log.
Proof. cbv zeta. repeat split; reflexivity. Qed.

(** ** The partials with respect to the state *)

Section StatePartials.

Context {World : Type}.
Implicit Types (this : InertialTorquePartial World).

(** C5.  Where the 3 by 3 block at [( startRow, startColumn )] lies within
    the caller's block, [wrtRotationalVelocityOfAcceleratedBody] adds the
    cached partial to the coefficients of that block if [addContribution]
    holds and subtracts it otherwise, and every other coefficient of the
    caller's matrix is as it was. *)
Theorem wrtRotationalVelocity_writes_sub_block this (partialMatrix : Block)
    (addContribution : bool) (startRow startColumn : Z) :
  storage_ok (xpr partialMatrix) = true ->
  block_ok partialMatrix = true ->
  fits partialMatrix startRow startColumn ->
  let r0 := Eigen.startRow partialMatrix + Z.to_nat startRow in
  let c0 := Eigen.startCol partialMatrix + Z.to_nat startColumn in
  let op := if addContribution then PrimFloat.add else PrimFloat.sub in
  exists m',
    wrtRotationalVelocityOfAcceleratedBody
      this partialMatrix addContribution startRow startColumn = Some m'
    /\ rows m' = rows (xpr partialMatrix)
    /\ cols m' = cols (xpr partialMatrix)
    /\ (forall p q, p < 3 -> q < 3 ->
          exists c,
            coeff (xpr partialMatrix) (r0 + p) (c0 + q) = Some c
            /\ coeff m' (r0 + p) (c0 + q) =
                 Some (op c (coeff3
                               (currentPartialDerivativeWrtAngularVelocity_ this)
                               p q)))
    /\ (forall i j,
          ~ (r0 <= i < r0 + 3 /\ c0 <= j < c0 + 3) ->
          coeff m' i j = coeff (xpr partialMatrix) i j).
Proof.
  intros Hm Hb Hfit r0 c0 op.
  unfold wrtRotationalVelocityOfAcceleratedBody.
  rewrite (block_fits _ _ _ Hfit). cbn [mbind option_bind].
  fold r0 c0.
  set (b := mkBlock (xpr partialMatrix) r0 c0 3 3).
  exists (assign3 op b (currentPartialDerivativeWrtAngularVelocity_ this)).
  split; [now destruct addContribution|].
  split; [reflexivity|]. split; [reflexivity|].
  unfold block_ok in Hb. apply andb_true_iff in Hb as [Hr Hc].
  apply Nat.leb_le in Hr, Hc.
  unfold fits in Hfit.
  split.
  - intros p q Hp Hq.
    destruct (coeff_is_Some (xpr partialMatrix) (r0 + p) (c0 + q) Hm)
      as [c Hc0]; [unfold r0; lia | unfold c0; lia |].
    exists c. split; [exact Hc0|].
    rewrite coeff_assign3.
    assert (inside b (r0 + p) (c0 + q) = true) as ->
      by (apply inside_spec; cbn; lia).
    subst b. cbn [xpr Eigen.startRow Eigen.startCol].
    rewrite Hc0. cbn [fmap option_fmap option_map].
    do 3 f_equal; lia.
  - intros i j Hout.
    rewrite coeff_assign3.
    destruct (inside b i j) eqn:Hin; [|reflexivity].
    apply inside_spec in Hin. cbn in Hin. lia.
Qed.

(** Where the 3 by 3 block does not lie within the caller's block there is no
    block to write to. *)
Lemma wrtRotationalVelocity_refused this (partialMatrix : Block)
    (addContribution : bool) (startRow startColumn : Z) :
  ~ fits partialMatrix startRow startColumn ->
  wrtRotationalVelocityOfAcceleratedBody
    this partialMatrix addContribution startRow startColumn = None.
Proof.
  intros Hout. unfold wrtRotationalVelocityOfAcceleratedBody.
  now rewrite (block_refused _ _ _ Hout).
Qed.

(** Two writes of one matrix at one block, the second of which undoes the
    first at every coefficient of the block, leave the matrix as it was. *)
Lemma assign3_twice_restores (op1 op2 : double -> double -> double)
    (b : Block) (M : Matrix3d) :
  (forall k c,
     data (xpr b) !! k = Some c ->
     inside b (k mod rows (xpr b)) (k / rows (xpr b)) = true ->
     op2 (op1 c (coeff3 M (k mod rows (xpr b) - Eigen.startRow b)
                          (k / rows (xpr b) - startCol b)))
         (coeff3 M (k mod rows (xpr b) - Eigen.startRow b)
                   (k / rows (xpr b) - startCol b)) = c) ->
  assign3 op2 (over b (assign3 op1 b M)) M = xpr b.
Proof.
  intros Hop. apply matrix_eq; [reflexivity | reflexivity |].
  unfold assign3, over.
  cbn [xpr rows cols data Eigen.startRow Eigen.startCol blockRows blockCols].
  apply list_eq. intros k. rewrite !list_lookup_imap.
  destruct (data (xpr b) !! k) as [c|] eqn:Hk; [|reflexivity].
  cbn [fmap option_fmap option_map]. f_equal.
  specialize (Hop k c Hk). unfold inside in *.
  cbn [Eigen.startRow Eigen.startCol blockRows blockCols].
  destruct (_ && _); [now apply Hop | reflexivity].
Qed.

(** C6, as amended.  If the nine coefficients of the cached partial are
    finite and every coefficient of the caller's block is zero, to write
    the partial with [addContribution = true] and then at the same place
    with [addContribution = false] leaves the caller's matrix as it was:
    every coefficient of the block is zero again, and the coefficients of
    the matrix around the block, zero or not, are untouched. *)
Theorem sign_symmetry_of_finite_partial this (partialMatrix : Block)
    (startRow startColumn : Z) :
  finite3 (currentPartialDerivativeWrtAngularVelocity_ this) = true ->
  zero_block partialMatrix ->
  fits partialMatrix startRow startColumn ->
  exists m',
    (m ← wrtRotationalVelocityOfAcceleratedBody
           this partialMatrix true startRow startColumn;
     wrtRotationalVelocityOfAcceleratedBody
       this (over partialMatrix m) false startRow startColumn)
    = Some m'
    /\ zero_block (over partialMatrix m')
    /\ m' = xpr partialMatrix.
Proof.
  intros HJ Hzero Hfit.
  exists (xpr partialMatrix).
  split; [|split; [exact Hzero | reflexivity]].
  unfold wrtRotationalVelocityOfAcceleratedBody.
  rewrite (block_fits _ _ _ Hfit). cbn [mbind option_bind].
  rewrite (block_fits (over partialMatrix _) _ _ Hfit). cbn [mbind option_bind].
  f_equal.
  set (J := currentPartialDerivativeWrtAngularVelocity_ this) in *.
  set (m := xpr partialMatrix) in *.
  set (b := mkBlock m (Eigen.startRow partialMatrix + Z.to_nat startRow)
              (startCol partialMatrix + Z.to_nat startColumn) 3 3).
  change (assign3 PrimFloat.sub (over b (assign3 PrimFloat.add b J)) J = xpr b).
  apply assign3_twice_restores.
  intros k c Hk Hin.
  enough (c = 0%float) as -> by apply add_sub_cancel_zero, finite_coeff3, HJ.
  apply inside_spec in Hin.
  cbn [xpr Eigen.startRow Eigen.startCol blockRows blockCols b] in Hin, Hk.
  unfold fits in Hfit.
  pose proof (Hzero (k mod rows m - Eigen.startRow partialMatrix)
                    (k / rows m - startCol partialMatrix)) as Hc.
  replace (Eigen.startRow partialMatrix
           + (k mod rows m - Eigen.startRow partialMatrix))
    with (k mod rows m) in Hc by lia.
  replace (startCol partialMatrix + (k / rows m - startCol partialMatrix))
    with (k / rows m) in Hc by lia.
  specialize (Hc ltac:(lia) ltac:(lia)).
  unfold coeff in Hc. fold m in Hc.
  case_decide as Hbound; [|discriminate].
  replace (k mod rows m + k / rows m * rows m) with k in Hc
    by (rewrite (Nat.div_mod_eq k (rows m)) at 1; lia).
  rewrite Hk in Hc. now injection Hc.
Qed.

(** C7.  [wrtOrientationOfAcceleratedBody] returns with the provider and
    with every coefficient of the caller's matrix as they were, whatever
    the block, the flag and the offsets. *)
Theorem wrtOrientation_is_no_op this (partialMatrix : Block)
    (addContribution : bool) (startRow startColumn : Z) :
  wrtOrientationOfAcceleratedBody
    this partialMatrix addContribution startRow startColumn
  = (this, xpr partialMatrix)
  /\ forall i j,
       coeff (snd (wrtOrientationOfAcceleratedBody
                     this partialMatrix addContribution startRow startColumn))
             i j
       = coeff (xpr partialMatrix) i j.
Proof. split; reflexivity. Qed.

(** C8.  Both predicates of dependency are false for every reference point
    and every type of integrated state. *)
Theorem dependency_predicates_false {IntegratedStateType : Type} this
    (stateReferencePoint : string * string)
    (integratedStateType : IntegratedStateType) :
  isStateDerivativeDependentOnIntegratedNonRotationalState
    this stateReferencePoint integratedStateType = false
  /\ isStateDerivativeDependentOnIntegratedAdditionalStateTypes
       this stateReferencePoint integratedStateType = false.
Proof. split; reflexivity. Qed.

End StatePartials.

(** C5 in the end-to-end scenario: the partial cached by [update( 0.0 )] is
    added into the 3 by 6 zero matrix at row 0 and column 3. *)
Lemma wrtRotationalVelocity_writes_sub_block_witness :
  exists m',
    wrtRotationalVelocityOfAcceleratedBody
      scenario.updated scenario.zeros true 0 3 = Some m'
    /\ rows m' = 3
    /\ cols m' = 6
    /\ (forall p q, p < 3 -> q < 3 ->
          exists c,
            coeff (Zero 3 6) (0 + p) (3 + q) = Some c
            /\ coeff m' (0 + p) (3 + q) =
                 Some (c + coeff3
                            (currentPartialDerivativeWrtAngularVelocity_
                               scenario.updated) p q)%float)
    /\ (forall i j,
          ~ (0 <= i < 0 + 3 /\ 3 <= j < 3 + 3) ->
          coeff m' i j = coeff (Zero 3 6) i j).
Proof.
  apply (wrtRotationalVelocity_writes_sub_block
           scenario.updated scenario.zeros true 0 3).
  - reflexivity.
  - reflexivity.
  - unfold fits. cbn. lia.
Defined.

(** C6, as amended, on the zero block of a matrix whose other half holds
    ones: the block is written at its row 0 and column 0. *)
Lemma sign_symmetry_of_finite_partial_witness :
  exists m',
    (m ← wrtRotationalVelocityOfAcceleratedBody
           scenario.updated scenario.zero_half true 0 0;
     wrtRotationalVelocityOfAcceleratedBody
       scenario.updated (over scenario.zero_half m) false 0 0)
    = Some m'
    /\ zero_block (over scenario.zero_half m')
    /\ m' = scenario.half_filled.
Proof.
  apply (sign_symmetry_of_finite_partial scenario.updated scenario.zero_half 0 0).
  - reflexivity.
  - intros p q Hp Hq. cbn in Hp, Hq.
    destruct p as [|[|[|p]]]; [| | |lia];
      (destruct q as [|[|[|q]]]; [| | |lia]); reflexivity.
  - unfold fits. cbn. lia.
Defined.

(** C6 as it stands fails where the cached partial is not finite.  For a
    body whose angular velocity is the sentinel, the partial cached by
    [update( 0.0 )] is NaN throughout, and the block is NaN after the two
    writes. *)
Lemma sign_symmetry_fails_for_nan_partial :
  (exists m,
     (m' ← wrtRotationalVelocityOfAcceleratedBody
             scenario.unset_updated scenario.zeros true 0 3;
      wrtRotationalVelocityOfAcceleratedBody
        scenario.unset_updated (over scenario.zeros m') false 0 3) = Some m
     /\ coeff m 0 3 = Some TUDAT_NAN)
  /\ (m' ← wrtRotationalVelocityOfAcceleratedBody
             scenario.unset_updated scenario.zeros true 0 3;
      wrtRotationalVelocityOfAcceleratedBody
        scenario.unset_updated (over scenario.zeros m') false 0 3)
     <> Some (Zero 3 6).
Proof.
  split.
  - eexists. split; reflexivity.
  - intros H.
    apply (f_equal (fun o => m ← o; c ← coeff m 0 3; Some (is_nan c))) in H.
    vm_compute in H. discriminate.
Qed.

(** ** The dispatch on the parameter identity *)

Section DispatchClaims.

Context {World : Type}.
Implicit Types (this : InertialTorquePartial World).

(** C4.  For a parameter of the body of the provider the width is 1 for
    the mean moment of inertia, 1 for the gravitational parameter, 3 for
    the cosine coefficients C20, C21, C22 and 2 for the sine coefficients
    S21, S22, each with its callable; for an unrelated kind and for a
    parameter of another body the width is 0 and there is no callable.
    A width is 0 exactly when there is no callable, and no request fails:
    the function is total. *)
Theorem getParameterPartialFunction_widths this :
  let body := acceleratedBody_ this in
  getParameterPartialFunction_double this
    (mkEstimatableParameter mean_moment_of_inertia body)
  = (Some wrtMeanMomentOfInertia, 1%Z)
  /\ getParameterPartialFunction_double this
       (mkEstimatableParameter gravitational_parameter body)
     = (Some wrtGravitationalParameter, 1%Z)
  /\ getParameterPartialFunction_vector this
       (mkEstimatableParameter degree_two_cosine_coefficients body)
     = (Some wrtCosineSphericalHarmonicCoefficientsOfCentralBody, 3%Z)
  /\ getParameterPartialFunction_vector this
       (mkEstimatableParameter degree_two_sine_coefficients body)
     = (Some wrtSineSphericalHarmonicCoefficientsOfCentralBody, 2%Z)
  /\ (forall tag other,
        getParameterPartialFunction_double this
          (mkEstimatableParameter (unrelated_double_parameter tag) other)
        = (None, 0%Z)
        /\ getParameterPartialFunction_vector this
             (mkEstimatableParameter (unrelated_vector_parameter tag) other)
           = (None, 0%Z))
  /\ (forall kind kind' other,
        other <> body ->
        getParameterPartialFunction_double this
          (mkEstimatableParameter kind other) = (None, 0%Z)
        /\ getParameterPartialFunction_vector this
             (mkEstimatableParameter kind' other) = (None, 0%Z))
  /\ (forall parameter,
        snd (getParameterPartialFunction_double this parameter) = 0%Z
        <-> fst (getParameterPartialFunction_double this parameter) = None)
  /\ (forall parameter,
        snd (getParameterPartialFunction_vector this parameter) = 0%Z
        <-> fst (getParameterPartialFunction_vector this parameter) = None).
Proof.
  cbv zeta.
  unfold getParameterPartialFunction_double, getParameterPartialFunction_vector.
  cbn [parameterKind parameterBody].
  rewrite String.eqb_refl.
  repeat (split; [reflexivity|]).
  split; [|split; [|split]].
  - intros tag other. now destruct (String.eqb other (acceleratedBody_ this)).
  - intros kind kind' other Hother.
    apply String.eqb_neq in Hother. now rewrite Hother.
  - intros [kind other]. cbn [parameterKind parameterBody].
    destruct (String.eqb other (acceleratedBody_ this)), kind; cbn; split;
      intros; congruence.
  - intros [kind other]. cbn [parameterKind parameterBody].
    destruct (String.eqb other (acceleratedBody_ this)), kind; cbn; split;
      intros; congruence.
Qed.

End DispatchClaims.

(** C4 on the provider of the scenario, whose body is the Moon: a parameter
    of the Earth has width 0. *)
Lemma getParameterPartialFunction_widths_witness :
  getParameterPartialFunction_double scenario.updated
    (mkEstimatableParameter mean_moment_of_inertia "Earth") = (None, 0%Z)
  /\ getParameterPartialFunction_vector scenario.updated
       (mkEstimatableParameter degree_two_cosine_coefficients "Earth")
     = (None, 0%Z).
Proof.
  apply (proj1 (proj2 (proj2 (proj2 (proj2 (proj2
           (getParameterPartialFunction_widths scenario.updated))))))
           mean_moment_of_inertia degree_two_cosine_coefficients "Earth").
  discriminate.
Defined.

(** ** The random variable generator *)

Section SharedGenerators.

Import statistics.

Context {mt19937 : Type}.
Context (seeded : double -> mt19937).
Context (uniform_01 : mt19937 -> double * mt19937).
Context {Object : Type}.
Context (evaluateInverseCdf : Object -> double -> double * Object).

Implicit Types (g : @shared.ContinuousRandomVariableGenerator mt19937).
Implicit Types (heap : @shared.Heap Object) (object : Object).

(** A call on a generator whose distribution object is left as it is by
    [evaluateInverseCdf] changes the engine of the generator and nothing
    else, the heap included. *)
Lemma shared_call_frame g heap object :
  heap !! shared.randomVariable_ g = Some object ->
  (forall u, snd (evaluateInverseCdf object u) = object) ->
  shared.getRandomVariableValue uniform_01 evaluateInverseCdf g heap =
    Some (fst (evaluateInverseCdf object
                 (fst (uniform_01 (shared.randomUniformCdfGenerator_ g)))),
          shared.mkContinuousRandomVariableGenerator
            (shared.randomNumberGenerator_ g) (shared.randomVariable_ g)
            (snd (uniform_01 (shared.randomUniformCdfGenerator_ g))),
          heap).
Proof.
  intros Hobj Hconst. unfold shared.getRandomVariableValue.
  destruct (uniform_01 (shared.randomUniformCdfGenerator_ g)) as [u engine].
  rewrite Hobj. cbn [mbind option_bind fst snd].
  specialize (Hconst u).
  destruct (evaluateInverseCdf object u) as [v object']. cbn in Hconst.
  subst object'. now rewrite list_insert_id.
Qed.

(** Two generators that share such an object do not interfere. *)
Lemma shared_interleaved_alone (schedule : list Instance_) g1 g2 heap object :
  shared.randomVariable_ g1 = shared.randomVariable_ g2 ->
  heap !! shared.randomVariable_ g1 = Some object ->
  (forall u, snd (evaluateInverseCdf object u) = object) ->
  shared.interleaved uniform_01 evaluateInverseCdf schedule g1 g2 heap =
    Some (map (fun u => fst (evaluateInverseCdf object u))
              (uniforms uniform_01 (calls_of first schedule)
                 (shared.randomUniformCdfGenerator_ g1)),
          map (fun u => fst (evaluateInverseCdf object u))
              (uniforms uniform_01 (calls_of second schedule)
                 (shared.randomUniformCdfGenerator_ g2))).
Proof.
  intros Hsame Hobj Hconst. revert g1 g2 Hsame Hobj.
  induction schedule as [|i schedule IH]; intros g1 g2 Hsame Hobj;
    [reflexivity|].
  destruct i; cbn [shared.interleaved calls_of same Nat.add uniforms].
  - rewrite (shared_call_frame g1 heap object Hobj Hconst).
    cbn [mbind option_bind].
    rewrite IH by assumption.
    cbn [mbind option_bind shared.randomUniformCdfGenerator_].
    now destruct (uniform_01 (shared.randomUniformCdfGenerator_ g1)).
  - rewrite Hsame in Hobj.
    rewrite (shared_call_frame g2 heap object Hobj Hconst).
    cbn [mbind option_bind].
    rewrite IH by (cbn [shared.randomVariable_]; congruence).
    cbn [mbind option_bind shared.randomUniformCdfGenerator_].
    now destruct (uniform_01 (shared.randomUniformCdfGenerator_ g2)).
Qed.

(** The generator of [statistics], whose distribution is a function of its
    argument, is this one for an object that no call changes: the values
    are the same. *)
Lemma shared_as_statistics (schedule : list Instance_) (randomVariable : nat)
    (seed : double) heap object :
  heap !! randomVariable = Some object ->
  (forall u, snd (evaluateInverseCdf object u) = object) ->
  let pure : InvertibleContinuousProbabilityDistribution Object :=
    fun d u => fst (evaluateInverseCdf d u) in
  shared.interleaved uniform_01 evaluateInverseCdf schedule
    (shared.construct seeded randomVariable seed)
    (shared.construct seeded randomVariable seed) heap
  = Some (values (H := continuous_generator uniform_01)
            (calls_of first schedule) (construct seeded object seed),
          values (H := continuous_generator uniform_01)
            (calls_of second schedule) (construct seeded object seed)).
Proof.
  intros Hobj Hconst pure.
  set (g := shared.construct seeded randomVariable seed).
  rewrite (shared_interleaved_alone schedule g g heap object
             eq_refl Hobj Hconst).
  assert (forall n (c : @ContinuousRandomVariableGenerator mt19937 Object),
            values (H := continuous_generator uniform_01) n c
            = map (fun u => fst (evaluateInverseCdf (randomVariable_ c) u))
                  (uniforms uniform_01 n (randomUniformCdfGenerator_ c)))
    as Hvalues.
  { induction n as [|n IH]; intros c; [reflexivity|].
    cbn [values uniforms].
    unfold getRandomVariableValue at 1, continuous_generator at 1.
    destruct (uniform_01 (randomUniformCdfGenerator_ c)) as [u engine].
    cbn [map]. now rewrite IH. }
  now rewrite !Hvalues.
Qed.


(** With the counting distribution the first generator has the counts 0
    and 1 and the second, called after it, the counts 2 and 3, whatever the
    engine and the seed. *)
Lemma counting_shared (seed : double) :
  shared.interleaved uniform_01 shared.counting [first; first; second; second]
    (shared.construct seeded 0 seed) (shared.construct seeded 0 seed)
    [0%float]
  = Some ([0%float; 1%float], [2%float; 3%float]).
Proof.
  assert (forall g (count : double),
            shared.randomVariable_ g = 0 ->
            shared.getRandomVariableValue uniform_01 shared.counting g [count]
            = Some (count,
                    shared.mkContinuousRandomVariableGenerator
                      (shared.randomNumberGenerator_ g) 0
                      (snd (uniform_01 (shared.randomUniformCdfGenerator_ g))),
                    [(count + 1)%float])) as Hcall.
  { intros g count Hp. unfold shared.getRandomVariableValue.
    destruct (uniform_01 (shared.randomUniformCdfGenerator_ g)) as [u engine].
    now rewrite Hp. }
  cbn [shared.interleaved].
  rewrite Hcall by reflexivity. cbn [mbind option_bind].
  rewrite Hcall by reflexivity. cbn [mbind option_bind].
  rewrite Hcall by reflexivity. cbn [mbind option_bind].
  rewrite Hcall by reflexivity. cbn [mbind option_bind].
  reflexivity.
Qed.

End SharedGenerators.



(** * Further results *)

(** ** Runs of [update] *)

Section UpdateRuns.

Context {World : Type}.
Implicit Types (this other : InertialTorquePartial World) (s : Machine World).
Implicit Types (t : double) (epochs : list double).

Lemma recomputed_bindings this omega factor mu tensor :
  same_bindings (recomputed this omega factor mu tensor) this.
Proof. repeat split. Qed.


(** What a refresh computes is fixed by the base and the bound functions. *)
Lemma recomputed_same_bindings this other omega factor mu tensor :
  same_bindings this other ->
  recomputed this omega factor mu tensor = recomputed other omega factor mu tensor.
Proof.
  intros (Hb & H1 & H2 & H3 & H4). unfold recomputed.
  now rewrite Hb, H1, H2, H3, H4.
Qed.

Lemma refresh_same_bindings this other s :
  same_bindings this other -> refresh this s = refresh other s.
Proof.
  intros Hsame.
  destruct (refresh_total other s) as (omega & factor & mu & tensor & w & E).
  rewrite E.
  pose proof Hsame as (Hb & H1 & H2 & H3 & H4).
  destruct (angularVelocityFunction_ this (world s)) as [omega' w1] eqn:E1.
  destruct (getInertiaTensorNormalizationFactor_ this w1) as [factor' w2] eqn:E2.
  destruct (bodyGravitationalParameterFunction_ this w2) as [mu' w3] eqn:E3.
  destruct (inertiaTensorFunction_ this w3) as [tensor' w4] eqn:E4.
  rewrite (refresh_run this s _ _ _ _ _ _ _ _ E1 E2 E3 E4).
  rewrite H1 in E1. rewrite H3 in E2. rewrite H4 in E3. rewrite H2 in E4.
  rewrite (refresh_run other s _ _ _ _ _ _ _ _ E1 E2 E3 E4) in E.
  inversion E; subst.
  now rewrite (recomputed_same_bindings this other).
Qed.

Lemma refresh_bindings this s : same_bindings (fst (refresh this s)) this.
Proof.
  destruct (refresh_total this s) as (omega & factor & mu & tensor & w & ->).
  apply recomputed_bindings.
Qed.

Lemma update_bindings this t s : same_bindings (fst (update this t s)) this.
Proof.
  unfold update. destruct (currentTime_ this =? t)%float; cbn [negb].
  - repeat split.
  - apply refresh_bindings.
Qed.

Lemma same_bindings_trans this other third :
  same_bindings this other -> same_bindings other third ->
  same_bindings this third.
Proof.
  intros (Hb & H1 & H2 & H3 & H4) (Hb' & H1' & H2' & H3' & H4').
  repeat split; congruence.
Qed.

Lemma updates_cons t epochs this s :
  updates (t :: epochs) this s =
    updates epochs (fst (update this t s)) (snd (update this t s)).
Proof.
  cbn [updates]. unfold mbind, M_bind, bind.
  now destruct (update this t s).
Qed.

Lemma updates_bindings epochs this s :
  same_bindings (fst (updates epochs this s)) this.
Proof.
  revert this s. induction epochs as [|t rest IH]; intros this s.
  - repeat split.
  - rewrite updates_cons.
    eapply same_bindings_trans; [apply IH | apply update_bindings].
Qed.

(** X1.  Whatever epochs a caller passes to [update], one call after the
    other, the bound functions are invoked in whole groups of four, in the
    order of the source, and in no more groups than there were calls: each
    of the four has been invoked as often as the other three. *)
Theorem updates_invoke_in_groups epochs this s :
  exists k,
    k <= length epochs
    /\ invoked (snd (updates epochs this s)) =
         invoked s ++ concat (replicate k refresh_log).
Proof.
  revert this s. induction epochs as [|t rest IH]; intros this s.
  - exists 0. split; [reflexivity|]. cbn. now rewrite app_nil_r.
  - rewrite updates_cons.
    destruct (IH (fst (update this t s)) (snd (update this t s)))
      as (k & Hk & Hlog).
    destruct (currentTime_ this =? t)%float eqn:Ht.
    + rewrite (update_equal this t s Ht) in Hlog. cbn [fst snd] in Hlog.
      rewrite (update_equal this t s Ht). cbn [fst snd].
      exists k. split; [cbn; lia | exact Hlog].
    + rewrite (update_unequal this t s Ht) in Hlog.
      rewrite refresh_invoked in Hlog.
      rewrite (update_unequal this t s Ht).
      exists (S k). split; [cbn; lia|].
      rewrite Hlog. cbn [replicate concat]. now rewrite <- app_assoc.
Qed.

(** X2.  No run of [update] changes the names of the two bodies, the torque
    type or any of the four bound functions. *)
Theorem updates_keep_identity epochs this s :
  acceleratedBody_ (fst (updates epochs this s)) = acceleratedBody_ this
  /\ acceleratingBody_ (fst (updates epochs this s)) = acceleratingBody_ this
  /\ torqueType_ (fst (updates epochs this s)) = torqueType_ this
  /\ angularVelocityFunction_ (fst (updates epochs this s))
     = angularVelocityFunction_ this
  /\ inertiaTensorFunction_ (fst (updates epochs this s))
     = inertiaTensorFunction_ this
  /\ getInertiaTensorNormalizationFactor_ (fst (updates epochs this s))
     = getInertiaTensorNormalizationFactor_ this
  /\ bodyGravitationalParameterFunction_ (fst (updates epochs this s))
     = bodyGravitationalParameterFunction_ this.
Proof.
  destruct (updates_bindings epochs this s) as (Hb & H1 & H2 & H3 & H4).
  rewrite Hb. repeat split; assumption.
Qed.


(** X5.  A call of [update] that refreshes keeps nothing of the cache it
    finds: two providers with the same base and the same bound functions
    are the same provider after it, whatever their cached members were. *)
Theorem refreshing_update_forgets_cache this other t s :
  same_bindings this other ->
  (currentTime_ this =? t)%float = false ->
  update this t s = update other t s.
Proof.
  intros Hsame Ht.
  assert ((currentTime_ other =? t)%float = false) as Ht'
    by (destruct Hsame as [<- _]; exact Ht).
  rewrite (update_unequal this t s Ht), (update_unequal other t s Ht').
  now apply refresh_same_bindings.
Qed.

(** X6.  With bound functions that leave the world as it is, a second
    [update( t )] right after a first gives the provider that the first
    gave, whether the calls refresh or not, and the world is as it was. *)
Theorem update_twice_same_provider this t s :
  bound_functions_read_only this ->
  let first_call := update this t s in
  let second_call := update (fst first_call) t (snd first_call) in
  fst second_call = fst first_call
  /\ world (snd second_call) = world s.
Proof.
  intros (P1 & P2 & P3 & P4). cbv zeta.
  destruct (currentTime_ this =? t)%float eqn:Ht.
  - rewrite (update_equal this t s Ht). cbn [fst snd].
    rewrite (update_equal this t s Ht). split; reflexivity.
  - rewrite (update_unequal this t s Ht).
    destruct (angularVelocityFunction_ this (world s)) as [omega w1] eqn:E1.
    destruct (getInertiaTensorNormalizationFactor_ this w1) as [factor w2] eqn:E2.
    destruct (bodyGravitationalParameterFunction_ this w2) as [mu w3] eqn:E3.
    destruct (inertiaTensorFunction_ this w3) as [tensor w4] eqn:E4.
    rewrite (refresh_run this s _ _ _ _ _ _ _ _ E1 E2 E3 E4). cbn [fst snd].
    pose proof (P1 (world s)) as Q1. rewrite E1 in Q1. cbn in Q1. subst w1.
    pose proof (P3 (world s)) as Q2. rewrite E2 in Q2. cbn in Q2. subst w2.
    pose proof (P4 (world s)) as Q3. rewrite E3 in Q3. cbn in Q3. subst w3.
    pose proof (P2 (world s)) as Q4. rewrite E4 in Q4. cbn in Q4. subst w4.
    set (this' := recomputed this omega factor mu tensor).
    set (s' := mkMachine (world s) (invoked s ++ refresh_log)).
    assert ((currentTime_ this' =? t)%float = false) as Ht' by exact Ht.
    rewrite (update_unequal this' t s' Ht').
    rewrite (refresh_run this' s' omega (world s) factor (world s) mu (world s)
               tensor (world s) E1 E2 E3 E4).
    split; reflexivity.
Qed.

End UpdateRuns.


(** X5 in the scenario: the provider as constructed and the provider after
    a first call differ in their cache and are the same after [update]. *)
Lemma refreshing_update_forgets_cache_witness :
  update scenario.provider 0%float scenario.start
  = update scenario.updated 0%float scenario.start.
Proof.
  apply (refreshing_update_forgets_cache
           scenario.provider scenario.updated 0%float scenario.start).
  - repeat split.
  - reflexivity.
Defined.

(** X6 in the scenario, whose bound functions are constant. *)
Lemma update_twice_same_provider_witness :
  fst (update (fst (update scenario.provider 0%float scenario.start)) 0%float
              (snd (update scenario.provider 0%float scenario.start)))
  = fst (update scenario.provider 0%float scenario.start)
  /\ world (snd (update (fst (update scenario.provider 0%float scenario.start))
                        0%float
                        (snd (update scenario.provider 0%float scenario.start))))
     = world scenario.start.
Proof.
  apply (update_twice_same_provider scenario.provider 0%float scenario.start).
  repeat split.
Defined.

(** ** More on doubles *)

Section MoreDoubles.

Local Open Scope float_scope.

(** Taking a finite double from zero and adding it again gives zero. *)
Lemma sub_add_cancel_zero (c : double) :
  finite c = true -> 0 - c + c = 0.
Proof.
  intros Hc. apply Prim2SF_inj.
  rewrite FloatAxioms.add_spec, FloatAxioms.sub_spec.
  destruct (finite_inv c Hc) as [[s ->] | (s & m & e & ->)].
  - destruct s; reflexivity.
  - change (Prim2SF 0) with (S754_zero false).
    unfold SF64add, SF64sub. cbn [SFadd SFsub].
    replace (cond_Zopp (negb s) _ + cond_Zopp s _)%Z with 0%Z; [reflexivity|].
    destruct s; cbn [negb cond_Zopp]; lia.
Qed.

(** A NaN operand makes a NaN result. *)
Lemma mul_nan_r (a : double) : a * TUDAT_NAN = TUDAT_NAN.
Proof.
  apply Prim2SF_inj. rewrite FloatAxioms.mul_spec. unfold SF64mul.
  destruct (Prim2SF a); reflexivity.
Qed.

Lemma add_nan_r (a : double) : a + TUDAT_NAN = TUDAT_NAN.
Proof.
  apply Prim2SF_inj. rewrite FloatAxioms.add_spec. unfold SF64add.
  destruct (Prim2SF a); reflexivity.
Qed.

Lemma add_nan_l (a : double) : TUDAT_NAN + a = TUDAT_NAN.
Proof.
  apply Prim2SF_inj. rewrite FloatAxioms.add_spec. unfold SF64add.
  destruct (Prim2SF a); reflexivity.
Qed.

(** The inner product with a vector that has a NaN component. *)
Lemma dot3_nan (a0 a1 a2 b0 b1 b2 : double) :
  b0 = TUDAT_NAN \/ b1 = TUDAT_NAN \/ b2 = TUDAT_NAN ->
  dot3 a0 a1 a2 b0 b1 b2 = TUDAT_NAN.
Proof.
  unfold dot3. intros [-> | [-> | ->]].
  - now rewrite mul_nan_r, !add_nan_l.
  - now rewrite mul_nan_r, add_nan_r, add_nan_l.
  - now rewrite mul_nan_r, add_nan_r.
Qed.

End MoreDoubles.

(** ** More on the writes through a block *)

Section Writes.

Context {World : Type}.
Implicit Types (this other : InertialTorquePartial World).

Lemma write_as_assign3 (addContribution : bool) (b : Block) (J : Matrix3d) :
  (if addContribution then add_assign3 b J else sub_assign3 b J)
  = assign3 (if addContribution then PrimFloat.add else PrimFloat.sub) b J.
Proof. now destruct addContribution. Qed.

Lemma inside_over (b : Block) (m : MatrixXd) :
  inside (over b m) = inside b.
Proof. reflexivity. Qed.

(** Two writes at blocks of one matrix that share no coefficient, in either
    order. *)
Lemma assign3_commute (op1 op2 : double -> double -> double)
    (b1 b2 : Block) (M1 M2 : Matrix3d) :
  xpr b1 = xpr b2 ->
  (forall i j, inside b1 i j = true -> inside b2 i j = true -> False) ->
  assign3 op2 (over b2 (assign3 op1 b1 M1)) M2
  = assign3 op1 (over b1 (assign3 op2 b2 M2)) M1.
Proof.
  intros Hx Hapart. apply matrix_eq.
  - cbn. now rewrite Hx.
  - cbn. now rewrite Hx.
  - unfold assign3. rewrite !inside_over. unfold over.
    cbn [xpr rows cols data Eigen.startRow Eigen.startCol blockRows blockCols].
    rewrite <- Hx. apply list_eq. intros k.
    rewrite !list_lookup_imap.
    destruct (data (xpr b1) !! k) as [c|]; [|reflexivity].
    cbn [fmap option_fmap option_map]. f_equal.
    specialize (Hapart (k mod rows (xpr b1)) (k / rows (xpr b1))).
    destruct (inside b1 _ _) eqn:E1; destruct (inside b2 _ _) eqn:E2;
      try reflexivity.
    exfalso. now apply Hapart.
Qed.

(** X7.  Two writes of rotational-velocity partials into one block, by the
    same provider or by two, each added or subtracted, give the same matrix
    in either order if their 3 by 3 blocks share no coefficient. *)
Theorem wrtRotationalVelocity_apart_commute this other (partialMatrix : Block)
    (add1 add2 : bool) (r1 c1 r2 c2 : Z) :
  fits partialMatrix r1 c1 ->
  fits partialMatrix r2 c2 ->
  apart r1 c1 r2 c2 ->
  (m ← wrtRotationalVelocityOfAcceleratedBody this partialMatrix add1 r1 c1;
   wrtRotationalVelocityOfAcceleratedBody other (over partialMatrix m) add2 r2 c2)
  = (m ← wrtRotationalVelocityOfAcceleratedBody other partialMatrix add2 r2 c2;
     wrtRotationalVelocityOfAcceleratedBody this (over partialMatrix m) add1 r1 c1).
Proof.
  intros Hf1 Hf2 Hapart.
  unfold wrtRotationalVelocityOfAcceleratedBody.
  rewrite (block_fits _ _ _ Hf1), (block_fits _ _ _ Hf2).
  cbn [mbind option_bind].
  rewrite (block_fits (over partialMatrix _) _ _ Hf1).
  rewrite (block_fits (over partialMatrix _) _ _ Hf2).
  cbn [mbind option_bind]. f_equal.
  rewrite !write_as_assign3.
  set (b1 := mkBlock (xpr partialMatrix)
               (Eigen.startRow partialMatrix + Z.to_nat r1)
               (startCol partialMatrix + Z.to_nat c1) 3 3).
  set (b2 := mkBlock (xpr partialMatrix)
               (Eigen.startRow partialMatrix + Z.to_nat r2)
               (startCol partialMatrix + Z.to_nat c2) 3 3).
  apply (assign3_commute _ _ b1 b2); [reflexivity|].
  intros i j H1%inside_spec H2%inside_spec.
  unfold fits in Hf1, Hf2. unfold apart in Hapart.
  cbn in H1, H2. lia.
Qed.

(** Two writes of one matrix at one block of a zero matrix, the second of
    which undoes the first coefficient by coefficient. *)
Lemma assign3_twice_zero (op1 op2 : double -> double -> double)
    (b : Block) (M : Matrix3d) (n : nat) :
  (forall p q, op2 (op1 0%float (coeff3 M p q)) (coeff3 M p q) = 0%float) ->
  data (xpr b) = replicate n 0%float ->
  data (assign3 op2 (over b (assign3 op1 b M)) M) = replicate n 0%float.
Proof.
  intros Hop Hdata.
  unfold assign3, over.
  cbn [xpr rows cols data Eigen.startRow Eigen.startCol blockRows blockCols].
  rewrite Hdata. apply list_eq. intros k.
  rewrite !list_lookup_imap. unfold double.
  destruct (replicate n 0%float !! k) as [c|] eqn:Hk; [|reflexivity].
  apply lookup_replicate in Hk as [-> _]. cbn [fmap option_fmap option_map].
  f_equal. unfold inside.
  cbn [Eigen.startRow Eigen.startCol blockRows blockCols].
  destruct (_ && _); [apply Hop | reflexivity].
Qed.

(** X8.  If the nine coefficients of the cached partial are finite, to
    write it into a block of a zero matrix with [addContribution = false]
    and then at the same place with [addContribution = true] gives the zero
    matrix again: the two signs undo each other in this order too. *)
Theorem subtract_then_add_of_finite_partial this (partialMatrix : Block)
    (r c : nat) (startRow startColumn : Z) :
  finite3 (currentPartialDerivativeWrtAngularVelocity_ this) = true ->
  xpr partialMatrix = Zero r c ->
  fits partialMatrix startRow startColumn ->
  (m ← wrtRotationalVelocityOfAcceleratedBody
         this partialMatrix false startRow startColumn;
   wrtRotationalVelocityOfAcceleratedBody
     this (over partialMatrix m) true startRow startColumn)
  = Some (Zero r c).
Proof.
  intros HJ Hzero Hfit.
  unfold wrtRotationalVelocityOfAcceleratedBody.
  rewrite (block_fits _ _ _ Hfit). cbn [mbind option_bind].
  rewrite (block_fits (over partialMatrix _) _ _ Hfit). cbn [mbind option_bind].
  f_equal.
  set (J := currentPartialDerivativeWrtAngularVelocity_ this) in *.
  set (b := mkBlock (xpr partialMatrix)
              (Eigen.startRow partialMatrix + Z.to_nat startRow)
              (startCol partialMatrix + Z.to_nat startColumn) 3 3).
  change (assign3 PrimFloat.add (over b (assign3 PrimFloat.sub b J)) J = Zero r c).
  apply matrix_eq.
  - cbn. now rewrite Hzero.
  - cbn. now rewrite Hzero.
  - apply (assign3_twice_zero PrimFloat.sub PrimFloat.add b J (r * c)).
    + intros p q. apply sub_add_cancel_zero, finite_coeff3, HJ.
    + cbn. now rewrite Hzero.
Qed.

End Writes.

(** X7 in the scenario: two providers write into the 3 by 6 zero matrix,
    one at column 0 and one at column 3. *)
Lemma wrtRotationalVelocity_apart_commute_witness :
  (m ← wrtRotationalVelocityOfAcceleratedBody
         scenario.updated scenario.zeros true 0 0;
   wrtRotationalVelocityOfAcceleratedBody
     scenario.unset_updated (over scenario.zeros m) false 0 3)
  = (m ← wrtRotationalVelocityOfAcceleratedBody
           scenario.unset_updated scenario.zeros false 0 3;
     wrtRotationalVelocityOfAcceleratedBody
       scenario.updated (over scenario.zeros m) true 0 0).
Proof.
  apply (wrtRotationalVelocity_apart_commute
           scenario.updated scenario.unset_updated scenario.zeros
           true false 0 0 0 3).
  - unfold fits. cbn. lia.
  - unfold fits. cbn. lia.
  - unfold apart. lia.
Defined.

(** X8 in the end-to-end scenario. *)
Lemma subtract_then_add_of_finite_partial_witness :
  (m ← wrtRotationalVelocityOfAcceleratedBody
         scenario.updated scenario.zeros false 0 3;
   wrtRotationalVelocityOfAcceleratedBody
     scenario.updated (over scenario.zeros m) true 0 3)
  = Some (Zero 3 6).
Proof.
  apply (subtract_then_add_of_finite_partial scenario.updated scenario.zeros 3 6 0 3).
  - reflexivity.
  - reflexivity.
  - unfold fits. cbn. lia.
Defined.

(** ** A NaN in the angular velocity *)

Section NaNAngularVelocity.

Context {World : Type}.
Implicit Types (this : InertialTorquePartial World) (s : Machine World).

(** X10.  If a call of [update] refreshes and the angular velocity it reads
    has a NaN component, the six coefficients off the diagonal of the cached
    partial are NaN, whatever the inertia tensor is: the cached partial is
    then not finite. *)
Theorem update_with_nan_angular_velocity this (t : double) s omega w1 :
  (currentTime_ this =? t)%float = false ->
  angularVelocityFunction_ this (world s) = (omega, w1) ->
  x omega = TUDAT_NAN \/ y omega = TUDAT_NAN \/ z omega = TUDAT_NAN ->
  let J := currentPartialDerivativeWrtAngularVelocity_ (fst (update this t s)) in
  c01 J = TUDAT_NAN /\ c02 J = TUDAT_NAN
  /\ c10 J = TUDAT_NAN /\ c12 J = TUDAT_NAN
  /\ c20 J = TUDAT_NAN /\ c21 J = TUDAT_NAN
  /\ finite3 J = false.
Proof.
  intros Ht E1 Hnan. cbv zeta.
  rewrite (update_unequal this t s Ht).
  destruct (getInertiaTensorNormalizationFactor_ this w1) as [factor w2] eqn:E2.
  destruct (bodyGravitationalParameterFunction_ this w2) as [mu w3] eqn:E3.
  destruct (inertiaTensorFunction_ this w3) as [tensor w4] eqn:E4.
  rewrite (refresh_run this s _ _ _ _ _ _ _ _ E1 E2 E3 E4).
  cbn [fst recomputed currentPartialDerivativeWrtAngularVelocity_].
  unfold add3, mulv3, getCrossProductMatrix.
  cbn [c00 c01 c02 c10 c11 c12 c20 c21 c22 x y z].
  rewrite !(dot3_nan _ _ _ _ _ _ Hnan).
  change (- TUDAT_NAN)%float with TUDAT_NAN.
  rewrite !add_nan_r.
  repeat (split; [reflexivity|]).
  unfold finite3. cbn [c00 c01 c02 c10 c11 c12 c20 c21 c22].
  change (finite TUDAT_NAN) with false.
  now rewrite !andb_false_r.
Qed.

End NaNAngularVelocity.

(** X10 on the provider of a body whose angular velocity is not set. *)
Lemma update_with_nan_angular_velocity_witness :
  let J := currentPartialDerivativeWrtAngularVelocity_
             (fst (update scenario.unset 0%float scenario.start)) in
  c01 J = TUDAT_NAN /\ c02 J = TUDAT_NAN
  /\ c10 J = TUDAT_NAN /\ c12 J = TUDAT_NAN
  /\ c20 J = TUDAT_NAN /\ c21 J = TUDAT_NAN
  /\ finite3 J = false.
Proof.
  apply (update_with_nan_angular_velocity scenario.unset 0%float scenario.start
           (mkVector3d TUDAT_NAN TUDAT_NAN TUDAT_NAN) tt).
  - reflexivity.
  - reflexivity.
  - left. reflexivity.
Defined.

(** ** Runs of the random variable generator *)

Section GeneratorRuns.

Import statistics.

Context {mt19937 : Type}.
Context (seeded : double -> mt19937).
Context (uniform_01 : mt19937 -> double * mt19937).
Context {D : Type} `{InvertibleContinuousProbabilityDistribution D}.

Abbreviation generator := (@ContinuousRandomVariableGenerator mt19937 D).
Abbreviation call := (@getRandomVariableValue generator double
                        (continuous_generator uniform_01)).
Abbreviation run := (@values generator double
                       (continuous_generator uniform_01)).
Abbreviation rest_after := (@after generator double
                              (continuous_generator uniform_01)).

(** One call, member by member. *)
Lemma call_unfold (g : generator) :
  call g =
    (evaluateInverseCdf (randomVariable_ g)
       (fst (uniform_01 (randomUniformCdfGenerator_ g))),
     mkContinuousRandomVariableGenerator
       (randomNumberGenerator_ g) (randomVariable_ g)
       (snd (uniform_01 (randomUniformCdfGenerator_ g)))).
Proof.
  unfold getRandomVariableValue, continuous_generator.
  now destruct (uniform_01 (randomUniformCdfGenerator_ g)).
Qed.

(** X11.  The values of a generator are the values of [uniform_01] on the
    engine seeded by the constructor, each mapped through the inverse
    cumulative distribution function of the distribution: the seed fixes
    the uniform values and the distribution only maps them. *)
Theorem values_are_mapped_uniforms (randomVariable : D) (seed : double)
    (n : nat) :
  run n (construct seeded randomVariable seed) =
    map (evaluateInverseCdf randomVariable)
        (uniforms uniform_01 n (seeded seed)).
Proof.
  enough (forall g : generator,
            run n g =
              map (evaluateInverseCdf (randomVariable_ g))
                  (uniforms uniform_01 n (randomUniformCdfGenerator_ g)))
    as Hrun by apply Hrun.
  induction n as [|n IH]; intros g; [reflexivity|].
  cbn [values uniforms]. rewrite call_unfold.
  destruct (uniform_01 (randomUniformCdfGenerator_ g)) as [u engine].
  cbn [fst snd map]. now rewrite IH.
Qed.

(** X13.  After any number of calls a generator still holds the
    distribution it was constructed with, and the engine of its base class
    is still as the seed left it: the calls advance the engine that
    [randomUniformCdfGenerator_] holds and nothing else, and that engine
    does not depend on the distribution. *)
Theorem calls_advance_own_engine_only (randomVariable : D) (seed : double)
    (n : nat) :
  rest_after n (construct seeded randomVariable seed) =
    mkContinuousRandomVariableGenerator
      (seeded seed) randomVariable
      (engine_after uniform_01 n (seeded seed)).
Proof.
  enough (forall g : generator,
            rest_after n g =
              mkContinuousRandomVariableGenerator
                (randomNumberGenerator_ g) (randomVariable_ g)
                (engine_after uniform_01 n (randomUniformCdfGenerator_ g)))
    as Hrest by apply Hrest.
  induction n as [|n IH]; intros g; [now destruct g|].
  cbn [after engine_after]. rewrite call_unfold. cbn [snd].
  now rewrite IH.
Qed.

End GeneratorRuns.
